(** * create_linear_tickets.py: a shallow embedding and its properties

    The script reads ticket definitions and creates them as issues in a
    remote tracker through GraphQL requests.  The embedding keeps the
    script's functions and names.  Python dicts are finite maps ([gmap]),
    sets are [gset], and the effects of the script (requests, sleeps,
    printed lines, the file written) are collected in a trace. *)

From Stdlib Require Import ZArith String Ascii List DecimalString.
From stdpp Require Import base option list gmap sets strings fin_maps.

Open Scope string_scope.
Open Scope list_scope.

#[local] Set Warnings "-clear-no-such-hyp".

(** ** Data model *)

(** A ticket dict of the input document.  Keys read with [ticket["k"]]
    ([id], [title], [description]) are plain fields.  Keys read with
    [ticket.get("k", [])] cannot be told apart from an empty list, so they
    are lists.  [phase] and [priority] are read with several defaults and
    stay optional. *)
Record ticket := Ticket {
  t_id : string;
  t_title : string;
  t_description : string;
  t_phase : option string;
  t_labels : list string;
  t_priority : option Z;
  t_dependencies : list string;
  t_spec_refs : list string
}.

(** [class TicketResult(TypedDict)] *)
Record TicketResult := mkTicketResult {
  json_id : string;
  linear_id : string;
  identifier : string;
  url : string
}.

(** ** Configuration *)

Definition DEFAULT_STATE : string := "Backlog".

(** [RATE_LIMIT_DELAY = 0.5] seconds, kept in milliseconds. *)
Definition RATE_LIMIT_DELAY : Z := 500.

(** [PRIORITY_MAP = {1: 1, 2: 2, 3: 3, 4: 4}] *)
Definition PRIORITY_MAP : gmap Z Z :=
  <[4%Z := 4%Z]> (<[3%Z := 3%Z]> (<[2%Z := 2%Z]> (<[1%Z := 1%Z]> ∅))).

(** The priorities of the remote tracker, as the comment above
    [PRIORITY_MAP] lists them: 0=No priority, 1=Urgent, 2=High, 3=Normal,
    4=Low. *)
Inductive linear_priority := NoPriority | Urgent | High | Normal | Low.

Definition linear_priority_code (p : linear_priority) : Z :=
  match p with
  | NoPriority => 0 | Urgent => 1 | High => 2 | Normal => 3 | Low => 4
  end%Z.

(** ** Python helpers *)

(** Truthiness of a string ([if s:]) and of an optional string
    ([if s:] where [s] may be [None]). *)
Definition truthy (s : string) : bool :=
  match s with EmptyString => false | _ => true end.

Definition truthy_opt (o : option string) : bool :=
  match o with Some s => truthy s | None => false end.

(** [dict.get(k, default)] *)
Definition dict_get `{Countable K} {V} (m : gmap K V) (k : K) (default : V) : V :=
  match m !! k with Some v => v | None => default end.

(** [str.lower()], on the ASCII letters. *)
Definition lower_char (c : ascii) : ascii :=
  let n := nat_of_ascii c in
  if (65 <=? n)%nat && (n <=? 90)%nat then ascii_of_nat (n + 32) else c.

Fixpoint lower (s : string) : string :=
  match s with
  | EmptyString => EmptyString
  | String c s' => String (lower_char c) (lower s')
  end.

(** [str(n)] for a natural number. *)
Definition decimal (n : nat) : string := NilEmpty.string_of_uint (Nat.to_uint n).

Definition newline : string := String "010"%char EmptyString.

(** ** Ticket processing: the pure part *)

(** [PRIORITY_MAP.get(ticket.get("priority", 3), 3)], the priority that
    [create_tickets_batch] computes for a ticket. *)
Definition ticket_priority (t : ticket) : Z :=
  dict_get PRIORITY_MAP (default 3%Z (t_priority t)) 3%Z.

(** [ticket.get("phase", "")] *)
Definition phase_or_empty (t : ticket) : string := default "" (t_phase t).

(** [collect_all_labels]: the loop body adds the ticket's labels one by
    one, then the phase when it is truthy. *)
Definition collect_ticket_labels (labels : gset string) (t : ticket) : gset string :=
  let labels := foldl (fun acc label => acc ∪ {[label]}) labels (t_labels t) in
  let phase := phase_or_empty t in
  if truthy phase then labels ∪ {[phase]} else labels.

Definition collect_all_labels (tickets : list ticket) : gset string :=
  foldl collect_ticket_labels ∅ tickets.

(** [filter_tickets_by_phase] *)
Definition filter_tickets_by_phase (tickets : list ticket) (phase : option string)
  : list ticket :=
  if negb (truthy_opt phase) then tickets
  else List.filter (fun t => bool_decide (t_phase t = phase)) tickets.

(** [format_description] *)
Definition format_description (t : ticket) (github_base_url : string) : string :=
  let parts := [t_description t; ""] in
  let parts :=
    match t_spec_refs t with
    | [] => parts
    | spec_refs =>
        parts ++ ["## Spec References"]
          ++ List.map (fun ref =>
                         "- [" +:+ ref +:+ "](" +:+ github_base_url +:+ "/" +:+ ref +:+ ")")
                      spec_refs
          ++ [""]
    end in
  let parts :=
    match t_dependencies t with
    | [] => parts
    | deps =>
        parts ++ ["## Dependencies"; "Blocked by: " +:+ String.concat ", " deps; ""]
    end in
  let parts :=
    parts ++ ["---";
              "*Phase: " +:+ default "unknown" (t_phase t) +:+ "*";
              "*Source: lichess_tickets.json (" +:+ t_id t +:+ ")*"] in
  String.concat newline parts.

(** ** The remote service and the effects of the script *)

(** A node of a [team { labels | projects | states { nodes { id name } } } ]
    query. *)
Record node := Node { node_id : string; node_name : string }.

(** The object a mutation returns beside [success]: [issueLabel { id }],
    [project { id }] or [issue { id identifier url }]. *)
Record entity := Entity {
  entity_id : string;
  entity_identifier : string;
  entity_url : string
}.

(** [input_data] of [create_issue]: the optional keys are only present
    when the argument is truthy (not [None] for [priority]). *)
Record issue_input := IssueInput {
  in_teamId : string;
  in_title : string;
  in_description : string;
  in_stateId : option string;
  in_priority : option Z;
  in_labelIds : option (list string);
  in_projectId : option string
}.

(** The GraphQL operations the script sends, with their variables. *)
Inductive request :=
| GetLabels (teamId : string)
| CreateLabel (teamId name : string) (color : option string)
| GetProjects (teamId : string)
| CreateProject (teamIds : list string) (name : string)
| GetWorkflowStates (teamId : string)
| CreateIssue (input : issue_input)
| CreateRelation (issueId relatedIssueId type : string).

(** What [_graphql_request] does with one request: it raises (missing
    API key, transport or HTTP error, GraphQL [errors]) or returns the
    [data] dict.  Of [data] only the parts the script reads are kept: the
    nodes of a team query, or the payload of a mutation.  A [data] of the
    other shape behaves as [{}] does under [.get(key, {})]. *)
Inductive response :=
| Raises (msg : string)
| Nodes (nodes : list node)
| Created (success : bool) (obj : option entity).

(** Exceptions that reach the script. *)
Inductive exn :=
| RequestError (msg : string)   (* raised inside [_graphql_request] *)
| Failed (msg : string)         (* [raise Exception(f"Failed to create ...")] *)
| KeyError (key : string).      (* a payload without its object *)

(** Lines printed by the script; each constructor carries the values its
    format string interpolates. *)
Inductive message :=
| MsgProgress (i total : nat) (json_id title50 : string)
    (* [{i+1}/{len(tickets)}] {json_id}: {title[:50]}... *)
| MsgWouldCreate (n_labels : nat) (priority : Z)
    (* Would create with {len(label_ids)} labels, priority {priority} *)
| MsgCreated (identifier url : string)        (* Created: {identifier} - {url} *)
| MsgError (e : exn)                          (* ERROR: {e} *)
| MsgWarnDependency (dep_id json_id : string)
    (* Warning: Dependency {dep_id} not found for {json_id} *)
| MsgWouldRelate (dep_id json_id : string)    (* Would create: {dep_id} blocks {json_id} *)
| MsgCreatedRelation (dep_id json_id : string)
    (* Created relation: {dep_id} blocks {json_id} *)
| MsgRelationError (dep_id json_id : string) (e : exn)
    (* ERROR creating relation {dep_id} -> {json_id}: {e} *)
| MsgSaved (path : string)                    (* Results saved to: {output_path} *)
| MsgRule                                     (* "=" * 60 *)
| MsgTitle                                    (* Linear Ticket Creation Script *)
| MsgDryRunMode                               (* DRY RUN MODE - No tickets will be created *)
| MsgLoading (path : string)                  (* Loading tickets from: {args.input} *)
| MsgLoaded (n : nat)                         (* Loaded {len(tickets)} tickets *)
| MsgFiltered (n : nat) (phase : string)      (* Filtered to {n} tickets for {args.phase} *)
| MsgNoTickets                                (* No tickets to create! *)
| MsgFoundLabels (n : nat) (labels : gset string)
    (* Found {len(all_labels)} unique labels: {sorted(all_labels)} *)
| MsgSettingUpLabels                          (* Setting up labels... *)
| MsgGettingStates                            (* Getting workflow states... *)
| MsgStateNotFound (state : string) (states : gmap string string)
    (* ERROR: State '{DEFAULT_STATE}' not found. Available: {list(states.keys())} *)
| MsgSettingUpProject (name : string)         (* Setting up project: {args.project}... *)
| MsgCreating (n : nat)                       (* Creating {len(tickets)} tickets... *)
| MsgCreatedCount (n : nat)                   (* Created {len(results)} tickets *)
| MsgCreatingRelations                        (* Creating dependency relations... *)
| MsgRelationCount (n : nat)                  (* Created {relation_count} blocking relations *)
| MsgDone.                                    (* Done! *)

(** The observable effects, in the order they happen. *)
Inductive event :=
| EvRequest (q : request) (r : response)   (* a call of [_graphql_request] and its outcome *)
| EvSleep (ms : Z)                         (* [time.sleep] *)
| EvPrint (m : message)                    (* [print] *)
| EvSave (path : string) (records : list TicketResult).
                                           (* [json.dump(results, f)] into [path] *)

(** A computation consumes the outcomes the service will give to the next
    requests, in order, and produces a result or an exception together
    with its trace and the outcomes left. *)
Inductive result (A : Type) :=
| Ok (a : A)
| Raise (e : exn).
Arguments Ok {A} a.
Arguments Raise {A} e.

Definition M (A : Type) : Type :=
  list response -> result A * list event * list response.

Definition ret {A} (a : A) : M A := fun rs => (Ok a, [], rs).

Definition bind {A B} (m : M A) (f : A -> M B) : M B := fun rs =>
  match m rs with
  | (Ok a, tr, rs') =>
      match f a rs' with (b, tr', rs'') => (b, tr ++ tr', rs'') end
  | (Raise e, tr, rs') => (Raise e, tr, rs')
  end.

Definition raise {A} (e : exn) : M A := fun rs => (Raise e, [], rs).

(** [try: body except Exception as e: handler] *)
Definition try_except {A} (body : M A) (handler : exn -> M A) : M A := fun rs =>
  match body rs with
  | (Ok a, tr, rs') => (Ok a, tr, rs')
  | (Raise e, tr, rs') =>
      match handler e rs' with (b, tr', rs'') => (b, tr ++ tr', rs'') end
  end.

Definition emit (ev : event) : M unit := fun rs => (Ok tt, [ev], rs).
Definition print (m : message) : M unit := emit (EvPrint m).
Definition sleep (ms : Z) : M unit := emit (EvSleep ms).

Declare Scope py_scope.
Delimit Scope py_scope with py.
Notation "'let*' x ':=' m 'in' k" := (bind m (fun x => k))
  (at level 10, x name, m at level 100, k at level 200) : py_scope.
Notation "m ';;' k" := (bind m (fun _ => k))
  (at level 100, k at level 200, right associativity, only parsing) : py_scope.
Open Scope py_scope.

(** The trace and the result of a run. *)
Definition trace_of {A} (run : result A * list event * list response) : list event :=
  snd (fst run).
Definition result_of {A} (run : result A * list event * list response) : result A :=
  fst (fst run).

(** ** Linear API functions *)

(** [_graphql_request]: the next outcome of the service decides; a run
    that outlives the scripted outcomes meets a transport error. *)
Definition _graphql_request (q : request) : M response := fun rs =>
  let r := match rs with r :: _ => r | [] => Raises "connection failed" end in
  let rs' := tl rs in
  match r with
  | Raises msg => (Raise (RequestError msg), [EvRequest q r], rs')
  | _ => (Ok r, [EvRequest q r], rs')
  end.

(** [data.get("team", {}).get(..., {}).get("nodes", [])] *)
Definition team_nodes (data : response) : list node :=
  match data with Nodes nodes => nodes | _ => [] end.

(** [data.get("<mutation>", {})], as the pair of its [success] and its
    object. *)
Definition mutation_result (data : response) : bool * option entity :=
  match data with Created success obj => (success, obj) | _ => (false, None) end.

(** [create_label] *)
Definition create_label (team_id name : string) (color : option string) : M string :=
  let variables_color := if truthy_opt color then color else None in
  let* data := _graphql_request (CreateLabel team_id name variables_color) in
  let '(success, obj) := mutation_result data in
  if negb success then raise (Failed ("Failed to create label: " +:+ name))
  else match obj with
       | Some label => ret (entity_id label)
       | None => raise (KeyError "issueLabel")
       end.

(** [get_or_create_labels]: the loop over [label_names], with the dicts
    [existing] and [result] it updates. *)
Fixpoint get_or_create_labels_loop (team_id : string) (label_names : list string)
    (existing result : gmap string string) : M (gmap string string) :=
  match label_names with
  | [] => ret result
  | name :: rest =>
      let name_lower := lower name in
      match existing !! name_lower with
      | Some label_id =>
          get_or_create_labels_loop team_id rest existing (<[name := label_id]> result)
      | None =>
          let* label_id := create_label team_id name None in
          let result := <[name := label_id]> result in
          let existing := <[name_lower := label_id]> existing in
          sleep RATE_LIMIT_DELAY ;;
          get_or_create_labels_loop team_id rest existing result
      end
  end.

(** [{label["name"].lower(): label["id"] for label in nodes}]: a later
    node overrides an earlier one of the same key. *)
Definition existing_labels (nodes : list node) : gmap string string :=
  foldl (fun m label => <[lower (node_name label) := node_id label]> m) ∅ nodes.

Definition get_or_create_labels (team_id : string) (label_names : list string)
  : M (gmap string string) :=
  let* data := _graphql_request (GetLabels team_id) in
  let existing := existing_labels (team_nodes data) in
  get_or_create_labels_loop team_id label_names existing ∅.

(** [get_or_create_project] *)
Definition get_or_create_project (team_id project_name : string) : M string :=
  let* data := _graphql_request (GetProjects team_id) in
  let projects := team_nodes data in
  match List.find (fun project =>
                     bool_decide (lower (node_name project) = lower project_name))
                  projects with
  | Some project => ret (node_id project)
  | None =>
      let* data := _graphql_request (CreateProject [team_id] project_name) in
      let '(success, obj) := mutation_result data in
      if negb success then raise (Failed ("Failed to create project: " +:+ project_name))
      else match obj with
           | Some project => ret (entity_id project)
           | None => raise (KeyError "project")
           end
  end.

(** [get_workflow_states] *)
Definition get_workflow_states (team_id : string) : M (gmap string string) :=
  let* data := _graphql_request (GetWorkflowStates team_id) in
  let states := team_nodes data in
  ret (foldl (fun m state => <[node_name state := node_id state]> m) ∅ states).

(** [create_issue] *)
Definition create_issue (team_id title description : string)
    (state_id : option string) (priority : option Z)
    (label_ids : option (list string)) (project_id : option string) : M entity :=
  let input_data := {|
    in_teamId := team_id;
    in_title := title;
    in_description := description;
    in_stateId := if truthy_opt state_id then state_id else None;
    in_priority := priority;
    in_labelIds := match label_ids with
                   | Some (_ :: _) => label_ids
                   | _ => None
                   end;
    in_projectId := if truthy_opt project_id then project_id else None
  |} in
  let* data := _graphql_request (CreateIssue input_data) in
  let '(success, obj) := mutation_result data in
  if negb success then raise (Failed ("Failed to create issue: " +:+ title))
  else match obj with
       | Some issue => ret issue
       | None => raise (KeyError "issue")
       end.

(** [create_issue_relation]: [.get("success", False)] of the payload. *)
Definition create_issue_relation (issue_id related_issue_id relation_type : string)
  : M bool :=
  let* data := _graphql_request (CreateRelation issue_id related_issue_id relation_type) in
  ret (fst (mutation_result data)).

(** ** Ticket processing: the effectful part *)

(** The dry-run placeholder of [create_tickets_batch] for the ticket at
    index [i]. *)
Definition dry_run_result (i : nat) (json_id : string) : TicketResult :=
  {| json_id := json_id;
     linear_id := "dry-run";
     identifier := "DRY-" +:+ decimal (i + 1);
     url := "https://linear.app/dry-run" |}.

(** [label_ids = [label_map[l] for l in ticket_labels if l in label_map]]
    with [ticket_labels] the labels followed by the truthy phase. *)
Definition ticket_label_ids (label_map : gmap string string) (t : ticket) : list string :=
  let ticket_labels := t_labels t in
  let phase := phase_or_empty t in
  let ticket_labels := if truthy phase then ticket_labels ++ [phase] else ticket_labels in
  omap (fun l => label_map !! l) ticket_labels.

(** [create_tickets_batch]: the loop from index [i] on, with the list
    [results] and the dict [id_map] it updates; [total] is
    [len(tickets)]. *)
Fixpoint create_tickets_batch_loop (total i : nat) (tickets : list ticket)
    (team_id : string) (label_map : gmap string string) (state_id : string)
    (project_id : option string) (github_base_url : string) (dry_run : bool)
    (results : list TicketResult) (id_map : gmap string string)
  : M (list TicketResult * gmap string string) :=
  match tickets with
  | [] => ret (results, id_map)
  | ticket :: rest =>
      let json_id := t_id ticket in
      let title := t_title ticket in
      let description := format_description ticket github_base_url in
      let priority := ticket_priority ticket in
      let label_ids := ticket_label_ids label_map ticket in
      print (MsgProgress (i + 1) total json_id (String.substring 0 50 title)) ;;
      let* updated :=
        if dry_run then
          print (MsgWouldCreate (length label_ids) priority) ;;
          ret (results ++ [dry_run_result i json_id],
               <[json_id := "dry-run-" +:+ json_id]> id_map)
        else
          try_except
            (let* issue := create_issue team_id title description (Some state_id)
                             (Some priority) (Some label_ids) project_id in
             let results := results ++ [{| json_id := json_id;
                                           linear_id := entity_id issue;
                                           identifier := entity_identifier issue;
                                           url := entity_url issue |}] in
             let id_map := <[json_id := entity_id issue]> id_map in
             print (MsgCreated (entity_identifier issue) (entity_url issue)) ;;
             sleep RATE_LIMIT_DELAY ;;
             ret (results, id_map))
            (fun e => print (MsgError e) ;; ret (results, id_map)) in
      let '(results, id_map) := updated in
      create_tickets_batch_loop total (S i) rest team_id label_map state_id
        project_id github_base_url dry_run results id_map
  end.

Definition create_tickets_batch (tickets : list ticket) (team_id : string)
    (label_map : gmap string string) (state_id : string)
    (project_id : option string) (github_base_url : string) (dry_run : bool)
  : M (list TicketResult * gmap string string) :=
  create_tickets_batch_loop (length tickets) 0 tickets team_id label_map state_id
    project_id github_base_url dry_run [] ∅.

(** [create_dependency_relations]: the inner loop over [deps] of one
    ticket whose [json_id] is in [id_map]. *)
Fixpoint create_relations_of (json_id issue_id : string) (deps : list string)
    (id_map : gmap string string) (dry_run : bool) (count : nat) : M nat :=
  match deps with
  | [] => ret count
  | dep_id :: rest =>
      match id_map !! dep_id with
      | None =>
          print (MsgWarnDependency dep_id json_id) ;;
          create_relations_of json_id issue_id rest id_map dry_run count
      | Some blocking_issue_id =>
          let* count :=
            if dry_run then
              print (MsgWouldRelate dep_id json_id) ;; ret count
            else
              try_except
                (create_issue_relation blocking_issue_id issue_id "blocks" ;;
                 print (MsgCreatedRelation dep_id json_id) ;;
                 sleep RATE_LIMIT_DELAY ;;
                 ret (count + 1))
                (fun e => print (MsgRelationError dep_id json_id e) ;; ret count) in
          create_relations_of json_id issue_id rest id_map dry_run count
      end
  end.

(** The outer loop over [tickets]. *)
Fixpoint create_dependency_relations_loop (tickets : list ticket)
    (id_map : gmap string string) (dry_run : bool) (count : nat) : M nat :=
  match tickets with
  | [] => ret count
  | ticket :: rest =>
      let json_id := t_id ticket in
      let deps := t_dependencies ticket in
      match deps with
      | [] => create_dependency_relations_loop rest id_map dry_run count
      | _ =>
          match id_map !! json_id with
          | None => create_dependency_relations_loop rest id_map dry_run count
          | Some issue_id =>
              let* count :=
                create_relations_of json_id issue_id deps id_map dry_run count in
              create_dependency_relations_loop rest id_map dry_run count
          end
      end
  end.

Definition create_dependency_relations (tickets : list ticket)
    (id_map : gmap string string) (dry_run : bool) : M nat :=
  create_dependency_relations_loop tickets id_map dry_run 0.

(** [save_results]: the records are written as they are; the JSON text is
    not modelled. *)
Definition save_results (results : list TicketResult) (output_path : string) : M unit :=
  emit (EvSave output_path results) ;;
  print (MsgSaved output_path).

(** ** Main *)

(** The parsed command line. *)
Record args := Args {
  arg_dry_run : bool;
  arg_phase : option string;
  arg_skip_relations : bool;
  arg_input : string;
  arg_output : string;
  arg_team_id : string;
  arg_project : string;
  arg_github_url : string
}.

(** [{l: f"label-{i}" for i, l in enumerate(all_labels)}]; the order in
    which Python walks a set is not specified, [elements] fixes one. *)
Definition dry_run_label_map (all_labels : gset string) : gmap string string :=
  foldl (fun m il => <[snd il := "label-" +:+ decimal (fst il)]> m) ∅
        (imap (fun i l => (i, l)) (elements all_labels)).

(** [main], the block [if not args.dry_run: ... else: ...] that prepares
    [label_map], [state_id] and [project_id]; [None] stands for the early
    [return] when the default state is not found. *)
Definition main_setup (a : args) (all_labels : gset string)
  : M (option (gmap string string * string * string)) :=
  if negb (arg_dry_run a) then
    print MsgSettingUpLabels ;;
    let* label_map := get_or_create_labels (arg_team_id a) (elements all_labels) in
    print MsgGettingStates ;;
    let* states := get_workflow_states (arg_team_id a) in
    let state_id := states !! DEFAULT_STATE in
    if negb (truthy_opt state_id) then
      print (MsgStateNotFound DEFAULT_STATE states) ;;
      ret None
    else
      print (MsgSettingUpProject (arg_project a)) ;;
      let* project_id := get_or_create_project (arg_team_id a) (arg_project a) in
      ret (Some (label_map, default "" state_id, project_id))
  else
    ret (Some (dry_run_label_map all_labels, "dry-run-state", "dry-run-project")).

(** [main], from [# Create tickets] to the end. *)
Definition main_create (a : args) (tickets : list ticket)
    (label_map : gmap string string) (state_id project_id : string) : M unit :=
  print (MsgCreating (length tickets)) ;;
  let* created :=
    create_tickets_batch tickets (arg_team_id a) label_map state_id
      (Some project_id) (arg_github_url a) (arg_dry_run a) in
  let '(results, id_map) := created in
  print (MsgCreatedCount (length results)) ;;
  (if negb (arg_skip_relations a) then
     print MsgCreatingRelations ;;
     let* relation_count :=
       create_dependency_relations tickets id_map (arg_dry_run a) in
     print (MsgRelationCount relation_count)
   else ret tt) ;;
  (if negb (arg_dry_run a) then save_results results (arg_output a)
   else ret tt) ;;
  print MsgRule ;; print MsgDone ;; print MsgRule.

(** [main], after [parse_args]; [document] is the ["tickets"] list of the
    JSON document at [args.input], as [load_tickets] returns it. *)
Definition main (a : args) (document : list ticket) : M unit :=
  print MsgRule ;; print MsgTitle ;; print MsgRule ;;
  (if arg_dry_run a then print MsgDryRunMode else ret tt) ;;
  print (MsgLoading (arg_input a)) ;;
  let tickets := document in
  print (MsgLoaded (length tickets)) ;;
  let* tickets :=
    if truthy_opt (arg_phase a) then
      let tickets := filter_tickets_by_phase tickets (arg_phase a) in
      print (MsgFiltered (length tickets) (default "" (arg_phase a))) ;;
      ret tickets
    else ret tickets in
  match tickets with
  | [] => print MsgNoTickets
  | _ =>
      let all_labels := collect_all_labels tickets in
      print (MsgFoundLabels (size all_labels) all_labels) ;;
      let* setup := main_setup a all_labels in
      match setup with
      | None => ret tt
      | Some (label_map, state_id, project_id) =>
          main_create a tickets label_map state_id project_id
      end
  end.

(** ** Specification-side definitions *)

(** The priority table as the specification words it: 1 to Urgent, 2 to
    High, 3 to Normal, 4 to Low, anything else and a missing priority to
    Normal. *)
Definition spec_priority (p : option Z) : linear_priority :=
  match p with
  | None => Normal
  | Some z =>
      if (z =? 1)%Z then Urgent
      else if (z =? 2)%Z then High
      else if (z =? 3)%Z then Normal
      else if (z =? 4)%Z then Low
      else Normal
  end.

(** The labels one ticket asks for, as the specification words it: its
    explicit labels and its phase name.  A ticket carries a phase name
    when the key is present and not the empty string. *)
Definition phase_name (t : ticket) : gset string :=
  match t_phase t with
  | Some p => if truthy p then {[p]} else ∅
  | None => ∅
  end.

Definition spec_ticket_labels (t : ticket) : gset string :=
  list_to_set (t_labels t) ∪ phase_name t.

Definition spec_all_labels (tickets : list ticket) : gset string :=
  ⋃ (spec_ticket_labels <$> tickets).

(** *** Reading a trace *)

(** Events that are calls of [_graphql_request]; every network call of
    the script goes through it. *)
Definition is_request (ev : event) : bool :=
  match ev with EvRequest _ _ => true | _ => false end.

Definition is_print (ev : event) : bool :=
  match ev with EvPrint _ => true | _ => false end.

(** Events that are sleeps. *)
Definition is_sleep (ev : event) : bool :=
  match ev with EvSleep _ => true | _ => false end.

(** The requests of a trace, in order. *)
Definition requests_of (tr : list event) : list request :=
  omap (fun ev => match ev with EvRequest q _ => Some q | _ => None end) tr.






(** The names for which a trace holds a label-creation request. *)
Definition created_label_name (ev : event) : option string :=
  match ev with
  | EvRequest (CreateLabel _ name _) _ => Some name
  | _ => None
  end.

Definition created_label_names (tr : list event) : list string :=
  omap created_label_name tr.

(** A trace shows that the label [name] was created with id [label_id]. *)
Definition label_created (team_id : string) (tr : list event)
    (name label_id : string) : Prop :=
  exists label,
    EvRequest (CreateLabel team_id name None) (Created true (Some label)) ∈ tr
    /\ entity_id label = label_id.

(** [always P m]: the trace of [m] satisfies [P] whatever the service
    answers. *)
Definition always (P : list event -> Prop) {A} (m : M A) : Prop :=
  forall rs, P (trace_of (m rs)).




(** Traces without a sleep, and traces without a request. *)
Definition never_sleeps (tr : list event) : Prop :=
  forallb (fun ev => negb (is_sleep ev)) tr = true.

Definition no_requests (tr : list event) : Prop :=
  forallb (fun ev => negb (is_request ev)) tr = true.

(** *** Requests and their outcomes *)

(** The outcome the service gives to the next request. *)
Definition next_outcome (rs : list response) : response :=
  match rs with r :: _ => r | [] => Raises "connection failed" end.

(** The request [create_issue] sends for a ticket inside
    [create_tickets_batch]. *)
Definition issue_request (team_id : string) (label_map : gmap string string)
    (state_id : string) (project_id : option string) (github_base_url : string)
    (t : ticket) : request :=
  CreateIssue {|
    in_teamId := team_id;
    in_title := t_title t;
    in_description := format_description t github_base_url;
    in_stateId := if truthy state_id then Some state_id else None;
    in_priority := Some (ticket_priority t);
    in_labelIds := match ticket_label_ids label_map t with
                   | [] => None
                   | ids => Some ids
                   end;
    in_projectId := if truthy_opt project_id then project_id else None
  |}.

(** What [create_issue] makes of the outcome of its request: the issue, or
    the exception it raises. *)
Definition create_issue_outcome (title : string) (r : response) : entity + exn :=
  match r with
  | Raises msg => inr (RequestError msg)
  | Created true (Some issue) => inl issue
  | Created true None => inr (KeyError "issue")
  | _ => inr (Failed ("Failed to create issue: " +:+ title))
  end.

(** What [create_label] makes of the outcome of its request: the id of
    the new label, or the exception it raises. *)
Definition create_label_outcome (name : string) (r : response) : string + exn :=
  match r with
  | Raises msg => inr (RequestError msg)
  | Created true (Some label) => inl (entity_id label)
  | Created true None => inr (KeyError "issueLabel")
  | _ => inr (Failed ("Failed to create label: " +:+ name))
  end.

(** The line [create_tickets_batch] prints first for the ticket at index
    [i]. *)
Definition progress_line (total i : nat) (t : ticket) : message :=
  MsgProgress (i + 1) total (t_id t) (String.substring 0 50 (t_title t)).

(** The dict [id_map] after a dry run over [tickets]. *)
Definition dry_run_id_map (tickets : list ticket) (id_map : gmap string string)
  : gmap string string :=
  foldl (fun m t => <[t_id t := "dry-run-" +:+ t_id t]> m) id_map tickets.

(** *** The dependency edges *)






(** *** The label resolver *)

(** A requested name matches a remote label when the two agree in lower
    case. *)
Definition matches_remote_label (nodes : list node) (name label_id : string) : Prop :=
  exists label,
    label ∈ nodes /\ lower (node_name label) = lower name /\ node_id label = label_id.

Definition no_remote_label (nodes : list node) (name : string) : Prop :=
  forall label, label ∈ nodes -> lower (node_name label) <> lower name.

(** What the resolver guarantees, in terms of the trace [tr] and the
    result [out] of a run over the fetched [nodes]. *)
Definition label_resolver_post (team_id : string) (label_names : list string)
    (nodes : list node) (out : result (gmap string string)) (tr : list event) : Prop :=
  NoDup (lower <$> created_label_names tr)
  /\ (forall n, n ∈ created_label_names tr ->
        n ∈ label_names /\ no_remote_label nodes n)
  /\ (forall result, out = Ok result ->
        dom result = list_to_set label_names
        /\ forall name, name ∈ label_names ->
             exists label_id,
               result !! name = Some label_id
               /\ (matches_remote_label nodes name label_id
                   \/ (no_remote_label nodes name
                       /\ exists name',
                            lower name' = lower name /\ name' ∈ label_names
                            /\ label_created team_id tr name' label_id))).

(** *** Rate-limit delays *)

(** The requests that change the remote state. *)
Definition mutating (q : request) : bool :=
  match q with
  | CreateLabel _ _ _ | CreateProject _ _ | CreateIssue _ | CreateRelation _ _ _ => true
  | _ => false
  end.

(** A call that creates a label, an issue or a relation and comes back
    without raising. *)
Definition creation_returns (q : request) (r : response) : bool :=
  match q with
  | CreateLabel _ name _ =>
      match create_label_outcome name r with inl _ => true | inr _ => false end
  | CreateIssue input =>
      match create_issue_outcome (in_title input) r with inl _ => true | inr _ => false end
  | CreateRelation _ _ _ =>
      match r with Raises _ => false | _ => true end
  | _ => false
  end.

(** The next thing a trace does, lines apart, is to sleep for
    [RATE_LIMIT_DELAY]. *)
Fixpoint delay_next (tr : list event) : bool :=
  match tr with
  | EvPrint _ :: tr' => delay_next tr'
  | EvSleep ms :: _ => (ms =? RATE_LIMIT_DELAY)%Z
  | _ => false
  end.

(** Every request of the trace that owes a delay is followed by one. *)
Fixpoint delays_follow (owed : request -> response -> bool) (tr : list event) : bool :=
  match tr with
  | [] => true
  | EvRequest q r :: tr' =>
      (if owed q r then delay_next tr' else true) && delays_follow owed tr'
  | _ :: tr' => delays_follow owed tr'
  end.

Definition delays_kept (tr : list event) : Prop :=
  delays_follow creation_returns tr = true.

(** *** Sample inputs *)

(** Tickets. *)
Definition ticket_LIC1 : ticket :=
  {| t_id := "LIC-1"; t_title := "Board"; t_description := "Render the board";
     t_phase := Some "phase-0"; t_labels := ["core"]; t_priority := Some 1%Z;
     t_dependencies := []; t_spec_refs := ["board.md"] |}.

Definition ticket_LIC2 : ticket :=
  {| t_id := "LIC-2"; t_title := "Moves"; t_description := "Generate the moves";
     t_phase := Some "phase-0"; t_labels := ["Core"; "rules"]; t_priority := None;
     t_dependencies := ["LIC-1"]; t_spec_refs := [] |}.

Definition ticket_LIC3 : ticket :=
  {| t_id := "LIC-3"; t_title := "Clock"; t_description := "Run the clock";
     t_phase := Some "phase-1"; t_labels := []; t_priority := Some 4%Z;
     t_dependencies := ["LIC-2"; "LIC-7"]; t_spec_refs := [] |}.


Definition real_args : args :=
  {| arg_dry_run := false; arg_phase := None; arg_skip_relations := false;
     arg_input := "lichess_tickets.json"; arg_output := "linear_ticket_mapping.json";
     arg_team_id := "team"; arg_project := "Lichess Clone";
     arg_github_url := "https://specs" |}.


(** A run in which the second of three creation requests times out. *)
Definition outcomes_second_fails : list response :=
  [Created true (Some (Entity "issue-1" "CH-1" "https://linear.app/CH-1"));
   Raises "timeout";
   Created true (Some (Entity "issue-3" "CH-3" "https://linear.app/CH-3"))].

(** A run in which the projects query finds the project, the creation of
    the first issue times out and the second succeeds. *)
Definition outcomes_first_issue_fails : list response :=
  [Nodes [Node "label-1" "core"; Node "label-2" "phase-0"; Node "label-3" "rules"];
   Nodes [Node "state-1" "Backlog"];
   Nodes [Node "project-1" "Lichess Clone"];
   Raises "timeout";
   Created true (Some (Entity "issue-2" "CH-2" "https://linear.app/CH-2"))].

(** *** Claims as the specification states them *)




(** C8, as the specification states it: in a run outside dry-run mode
    every mutating request is followed by the delay. *)
Definition delay_after_every_mutation (a : args) (document : list ticket)
    (rs : list response) : Prop :=
  arg_dry_run a = false ->
  delays_follow (fun q _ => mutating q) (trace_of (main a document rs)) = true.

(** * Properties *)

(** ** Priority mapping *)

Lemma PRIORITY_MAP_lookup (z : Z) :
  PRIORITY_MAP !! z =
    if (z =? 1)%Z then Some 1%Z
    else if (z =? 2)%Z then Some 2%Z
    else if (z =? 3)%Z then Some 3%Z
    else if (z =? 4)%Z then Some 4%Z
    else None.
Proof.
  unfold PRIORITY_MAP.
  repeat match goal with
         | |- context [(z =? ?k)%Z] => destruct (Z.eqb_spec z k); subst
         end;
    repeat first [ rewrite lookup_insert_eq | rewrite lookup_insert_ne by congruence ];
    try reflexivity.
Qed.

(** C3. The priority computed for a ticket is a total function of its
    priority field: 1, 2, 3, 4 give Urgent (1), High (2), Normal (3),
    Low (4), and a missing priority or any other number gives Normal (3). *)
Theorem ticket_priority_is_spec_priority (t : ticket) :
  ticket_priority t = linear_priority_code (spec_priority (t_priority t)).
Proof.
  unfold ticket_priority, dict_get, spec_priority.
  destruct (t_priority t) as [z|]; simpl.
  - rewrite PRIORITY_MAP_lookup.
    repeat match goal with
           | |- context [(z =? ?k)%Z] => destruct (Z.eqb_spec z k); subst
           end; reflexivity.
  - reflexivity.
Qed.

(** ** Label collection *)

Lemma foldl_add_labels (ls : list string) (acc : gset string) :
  foldl (fun acc label => acc ∪ {[label]}) acc ls = acc ∪ list_to_set ls.
Proof.
  revert acc. induction ls as [|l ls IH]; intros acc; simpl.
  - set_solver.
  - rewrite IH. set_solver.
Qed.

Lemma collect_ticket_labels_spec (acc : gset string) (t : ticket) :
  collect_ticket_labels acc t = acc ∪ spec_ticket_labels t.
Proof.
  unfold collect_ticket_labels, spec_ticket_labels, phase_name, phase_or_empty.
  rewrite foldl_add_labels.
  destruct (t_phase t) as [p|]; simpl.
  - destruct (truthy p); set_solver.
  - set_solver.
Qed.

Lemma collect_all_labels_from (tickets : list ticket) (acc : gset string) :
  foldl collect_ticket_labels acc tickets = acc ∪ spec_all_labels tickets.
Proof.
  revert acc. induction tickets as [|t ts IH]; intros acc; simpl.
  - unfold spec_all_labels. simpl. set_solver.
  - rewrite IH, collect_ticket_labels_spec.
    unfold spec_all_labels. simpl. set_solver.
Qed.

(** C9. The set collected from a ticket list is the union, over the
    tickets, of the ticket's explicit labels and its phase name (a phase
    that is present and not empty); being a set, it holds each name
    once. *)
Theorem collect_all_labels_is_union (tickets : list ticket) :
  collect_all_labels tickets = spec_all_labels tickets.
Proof.
  unfold collect_all_labels. rewrite collect_all_labels_from. set_solver.
Qed.

(** ** The batch creator *)

Lemma create_issue_run team_id (label_map : gmap string string) state_id project_id
    github_base_url t rs :
  create_issue team_id (t_title t) (format_description t github_base_url)
    (Some state_id) (Some (ticket_priority t))
    (Some (ticket_label_ids label_map t)) project_id rs =
  (match create_issue_outcome (t_title t) (next_outcome rs) with
   | inl issue => Ok issue
   | inr e => Raise e
   end,
   [EvRequest (issue_request team_id label_map state_id project_id github_base_url t)
      (next_outcome rs)],
   tl rs).
Proof.
  unfold create_issue, issue_request, bind, _graphql_request, next_outcome.
  cbn [truthy_opt].
  replace (match ticket_label_ids label_map t with
           | [] => None
           | _ :: _ => Some (ticket_label_ids label_map t)
           end)
    with (match ticket_label_ids label_map t with
          | [] => None
          | s :: l => Some (s :: l)
          end) by (destruct (ticket_label_ids label_map t); reflexivity).
  destruct rs as [|[msg|nodes|[|] [issue|]] rs]; reflexivity.
Qed.

Section BatchLoop.
Variables (total : nat) (team_id : string) (label_map : gmap string string)
          (state_id : string) (project_id : option string)
          (github_base_url : string).

#[local] Abbreviation loop i tickets dry_run results id_map :=
  (create_tickets_batch_loop total i tickets team_id label_map state_id
     project_id github_base_url dry_run results id_map).

#[local] Abbreviation progress i t := (EvPrint (progress_line total i t)).

#[local] Abbreviation request_of :=
  (issue_request team_id label_map state_id project_id github_base_url).

(** One iteration in dry-run mode. *)
Lemma batch_loop_dry_cons i t rest results id_map rs :
  loop i (t :: rest) true results id_map rs =
  match loop (S i) rest true (results ++ [dry_run_result i (t_id t)])
          (<[t_id t := "dry-run-" +:+ t_id t]> id_map) rs with
  | (out, tr, rs') =>
      (out,
       progress i t
         :: EvPrint (MsgWouldCreate (length (ticket_label_ids label_map t))
                       (ticket_priority t))
         :: tr,
       rs')
  end.
Proof.
  unfold progress_line. cbn [create_tickets_batch_loop].
  unfold bind, print, emit, ret. cbn [app].
  destruct (create_tickets_batch_loop _ _ _ _ _ _ _ _ _ _ _ _) as [[out tr] rs'].
  reflexivity.
Qed.

(** One iteration in real mode: the outcome of the creation request
    decides between recording the issue and logging the error. *)
Lemma batch_loop_real_cons i t rest results id_map rs :
  loop i (t :: rest) false results id_map rs =
  match create_issue_outcome (t_title t) (next_outcome rs) with
  | inl issue =>
      match loop (S i) rest false
              (results ++ [{| json_id := t_id t;
                              linear_id := entity_id issue;
                              identifier := entity_identifier issue;
                              url := entity_url issue |}])
              (<[t_id t := entity_id issue]> id_map) (tl rs) with
      | (out, tr, rs') =>
          (out,
           progress i t
             :: EvRequest (request_of t) (next_outcome rs)
             :: EvPrint (MsgCreated (entity_identifier issue) (entity_url issue))
             :: EvSleep RATE_LIMIT_DELAY
             :: tr,
           rs')
      end
  | inr e =>
      match loop (S i) rest false results id_map (tl rs) with
      | (out, tr, rs') =>
          (out,
           progress i t
             :: EvRequest (request_of t) (next_outcome rs)
             :: EvPrint (MsgError e)
             :: tr,
           rs')
      end
  end.
Proof.
  unfold progress_line. cbn [create_tickets_batch_loop].
  unfold bind at 1. unfold print at 1, emit at 1.
  unfold bind at 1. unfold try_except. unfold bind at 1.
  rewrite create_issue_run.
  destruct (create_issue_outcome _ _) as [issue|e].
  - unfold bind, print, sleep, emit, ret. cbn [app].
    destruct (create_tickets_batch_loop _ _ _ _ _ _ _ _ _ _ _ _) as [[out tr] rs'].
    reflexivity.
  - unfold bind, print, emit, ret. cbn [app].
    destruct (create_tickets_batch_loop _ _ _ _ _ _ _ _ _ _ _ _) as [[out tr] rs'].
    reflexivity.
Qed.
End BatchLoop.

(** The whole loop in dry-run mode: only lines are printed, the outcomes
    of the service are left untouched, and each ticket appends its
    placeholder. *)
Lemma batch_loop_dry total team_id label_map state_id project_id github_base_url
    tickets :
  forall i results id_map rs,
  exists tr,
    create_tickets_batch_loop total i tickets team_id label_map state_id
      project_id github_base_url true results id_map rs =
      (Ok (results ++ imap (fun k t => dry_run_result (i + k) (t_id t)) tickets,
           dry_run_id_map tickets id_map),
       tr, rs)
    /\ forallb is_print tr = true.
Proof.
  induction tickets as [|t rest IH]; intros i results id_map rs.
  - exists []. simpl. unfold ret. rewrite app_nil_r. split; reflexivity.
  - rewrite batch_loop_dry_cons.
    destruct (IH (S i) (results ++ [dry_run_result i (t_id t)])
                (<[t_id t := "dry-run-" +:+ t_id t]> id_map) rs) as (tr & -> & Hpr).
    exists (EvPrint (progress_line total i t)
              :: EvPrint (MsgWouldCreate (length (ticket_label_ids label_map t))
                            (ticket_priority t))
              :: tr).
    split; [|simpl; exact Hpr].
    assert (Hl : (results ++ [dry_run_result i (t_id t)])
                   ++ imap (fun k t0 => dry_run_result (S i + k) (t_id t0)) rest
                 = results
                   ++ imap (fun k t0 => dry_run_result (i + k) (t_id t0)) (t :: rest)).
    { rewrite <- app_assoc. cbn [imap app]. rewrite Nat.add_0_r.
      apply (f_equal (app results)), (f_equal (cons _)).
      apply imap_ext. intros k x _. simpl. f_equal. lia. }
    rewrite Hl. reflexivity.
Qed.

Lemma forallb_print_no_request (tr : list event) :
  forallb is_print tr = true -> requests_of tr = [].
Proof.
  induction tr as [|ev tr IH]; simpl; [reflexivity|].
  intros [Hev Htr]%andb_prop. destruct ev; try discriminate Hev.
  unfold requests_of. simpl. apply IH, Htr.
Qed.

Lemma imap_json_id (f : nat -> string -> TicketResult) (tickets : list ticket) :
  (forall i s, json_id (f i s) = s) ->
  json_id <$> imap (fun i t => f i (t_id t)) tickets = t_id <$> tickets.
Proof.
  intros Hf. revert f Hf. induction tickets as [|t rest IH]; intros f Hf.
  - reflexivity.
  - simpl. rewrite Hf. f_equal. apply (IH (fun i => f (S i))). intros; apply Hf.
Qed.

(** C6. In dry-run mode the batch creator sends no request and leaves the
    service untouched; it returns, for the tickets in their input order,
    one placeholder each: [linear_id] "dry-run", [identifier] "DRY-" and
    the position counted from 1, and the fixed dry-run url. *)
Theorem dry_run_batch_placeholders (tickets : list ticket) (team_id : string)
    (label_map : gmap string string) (state_id : string)
    (project_id : option string) (github_base_url : string) (rs : list response) :
  exists results id_map tr,
    create_tickets_batch tickets team_id label_map state_id project_id
      github_base_url true rs = (Ok (results, id_map), tr, rs)
    /\ requests_of tr = []
    /\ results = imap (fun i t => dry_run_result i (t_id t)) tickets
    /\ length results = length tickets
    /\ json_id <$> results = t_id <$> tickets.
Proof.
  unfold create_tickets_batch.
  destruct (batch_loop_dry (length tickets) team_id label_map state_id project_id
              github_base_url tickets 0 [] ∅ rs) as (tr & Hrun & Hpr).
  simpl in Hrun.
  eexists _, _, tr. split; [exact Hrun|].
  split; [apply forallb_print_no_request, Hpr|].
  split; [reflexivity|].
  split; [apply length_imap|].
  apply (imap_json_id dry_run_result). reflexivity.
Qed.

Section BatchInvariants.
Variables (total : nat) (team_id : string) (label_map : gmap string string)
          (state_id : string) (project_id : option string)
          (github_base_url : string).

#[local] Abbreviation loop i tickets dry_run results id_map :=
  (create_tickets_batch_loop total i tickets team_id label_map state_id
     project_id github_base_url dry_run results id_map).

#[local] Abbreviation request_of :=
  (issue_request team_id label_map state_id project_id github_base_url).

(** The loop never raises; it only appends to [results], and what it
    appends and what it adds to [id_map] carry the same ticket ids, taken
    from the tickets in their order. *)
Lemma batch_loop_coherent tickets dry_run :
  forall i results id_map rs,
  exists new id_map' tr rs',
    loop i tickets dry_run results id_map rs = (Ok (results ++ new, id_map'), tr, rs')
    /\ dom id_map' = dom id_map ∪ list_to_set (json_id <$> new)
    /\ sublist (json_id <$> new) (t_id <$> tickets).
Proof.
  induction tickets as [|t rest IH]; intros i results id_map rs.
  - exists [], id_map, [], rs. simpl. unfold ret. rewrite app_nil_r.
    split; [reflexivity|]. split; [set_solver|constructor].
  - destruct dry_run.
    + rewrite batch_loop_dry_cons.
      destruct (IH (S i) (results ++ [dry_run_result i (t_id t)])
                  (<[t_id t := "dry-run-" +:+ t_id t]> id_map) rs)
        as (new & id_map' & tr & rs' & -> & Hdom & Hsub).
      exists (dry_run_result i (t_id t) :: new), id_map'. eexists _, rs'.
      rewrite <- app_assoc. split; [reflexivity|].
      split.
      * rewrite Hdom, dom_insert_L. simpl. set_solver.
      * simpl. constructor. exact Hsub.
    + rewrite batch_loop_real_cons.
      destruct (create_issue_outcome (t_title t) (next_outcome rs)) as [issue|e].
      * destruct (IH (S i)
                    (results ++ [{| json_id := t_id t;
                                    linear_id := entity_id issue;
                                    identifier := entity_identifier issue;
                                    url := entity_url issue |}])
                    (<[t_id t := entity_id issue]> id_map) (tl rs))
          as (new & id_map' & tr & rs' & -> & Hdom & Hsub).
        eexists (_ :: new), id_map'. eexists _, rs'.
        rewrite <- app_assoc. split; [reflexivity|].
        split.
        -- rewrite Hdom, dom_insert_L. simpl. set_solver.
        -- simpl. constructor. exact Hsub.
      * destruct (IH (S i) results id_map (tl rs))
          as (new & id_map' & tr & rs' & -> & Hdom & Hsub).
        exists new, id_map'. eexists _, rs'.
        split; [reflexivity|]. split; [exact Hdom|].
        simpl. constructor. exact Hsub.
Qed.

(** Running the loop over [pre ++ post] is running it over [pre] and
    then, from the state reached, over [post]. *)
Lemma batch_loop_app pre post dry_run :
  forall i results id_map rs results1 id_map1 tr1 rs1,
  loop i pre dry_run results id_map rs = (Ok (results1, id_map1), tr1, rs1) ->
  loop i (pre ++ post) dry_run results id_map rs =
  match loop (i + length pre) post dry_run results1 id_map1 rs1 with
  | (out, tr2, rs2) => (out, tr1 ++ tr2, rs2)
  end.
Proof.
  induction pre as [|t pre IH]; intros i results id_map rs results1 id_map1 tr1 rs1 Hpre.
  - simpl in Hpre. unfold ret in Hpre. injection Hpre as <- <- <- <-.
    simpl. rewrite Nat.add_0_r.
    destruct (loop i post dry_run results id_map rs) as [[out tr2] rs2]. reflexivity.
  - rewrite <- app_comm_cons. simpl length.
    replace (i + S (length pre)) with (S i + length pre) by lia.
    destruct dry_run.
    + rewrite batch_loop_dry_cons in Hpre |- *.
      destruct (loop (S i) pre true _ _ rs) as [[out tr] rs'] eqn:Hrun.
      injection Hpre as -> <- ->.
      rewrite (IH _ _ _ _ _ _ _ _ Hrun).
      destruct (loop (S i + length pre) post true results1 id_map1 rs1)
        as [[out2 tr2] rs2].
      reflexivity.
    + rewrite batch_loop_real_cons in Hpre |- *.
      destruct (create_issue_outcome (t_title t) (next_outcome rs)) as [issue|e].
      * destruct (loop (S i) pre false _ _ (tl rs)) as [[out tr] rs'] eqn:Hrun.
        injection Hpre as -> <- ->.
        rewrite (IH _ _ _ _ _ _ _ _ Hrun).
        destruct (loop (S i + length pre) post false results1 id_map1 rs1)
          as [[out2 tr2] rs2].
        reflexivity.
      * destruct (loop (S i) pre false _ _ (tl rs)) as [[out tr] rs'] eqn:Hrun.
        injection Hpre as -> <- ->.
        rewrite (IH _ _ _ _ _ _ _ _ Hrun).
        destruct (loop (S i + length pre) post false results1 id_map1 rs1)
          as [[out2 tr2] rs2].
        reflexivity.
Qed.

(** In real mode the loop sends one creation request per ticket, in the
    order of the tickets, whatever the outcomes are. *)
Lemma batch_loop_real_requests tickets :
  forall i results id_map rs,
  requests_of (trace_of (loop i tickets false results id_map rs))
  = request_of <$> tickets.
Proof.
  induction tickets as [|t rest IH]; intros i results id_map rs.
  - reflexivity.
  - rewrite batch_loop_real_cons.
    destruct (create_issue_outcome (t_title t) (next_outcome rs)) as [issue|e].
    + specialize (IH (S i)
                    (results ++ [{| json_id := t_id t;
                                    linear_id := entity_id issue;
                                    identifier := entity_identifier issue;
                                    url := entity_url issue |}])
                    (<[t_id t := entity_id issue]> id_map) (tl rs)).
      destruct (loop (S i) rest false _ _ (tl rs)) as [[out tr] rs'].
      unfold trace_of in *. simpl in *. unfold requests_of in *. simpl.
      f_equal. exact IH.
    + specialize (IH (S i) results id_map (tl rs)).
      destruct (loop (S i) rest false _ _ (tl rs)) as [[out tr] rs'].
      unfold trace_of in *. simpl in *. unfold requests_of in *. simpl.
      f_equal. exact IH.
Qed.
End BatchInvariants.

Lemma size_list_to_set_le (l : list string) :
  size (list_to_set l : gset string) <= length l.
Proof.
  induction l as [|x l IH]; cbn [list_to_set foldr length].
  - rewrite size_empty. lia.
  - rewrite size_union_alt, size_singleton.
    assert (size (list_to_set l ∖ {[x]} : gset string) <= size (list_to_set l : gset string))
      by (apply subseteq_size; set_solver).
    lia.
Qed.

(** C10. In both modes the batch creator returns, without raising, a pair
    that is coherent: the keys of the id map are the [json_id]s of the
    results; the [json_id]s of the results are a subsequence of the ids of
    the input tickets, in their order; so a ticket adds at most one record
    and at most one key. *)
Theorem batch_results_coherent (tickets : list ticket) (team_id : string)
    (label_map : gmap string string) (state_id : string)
    (project_id : option string) (github_base_url : string) (dry_run : bool)
    (rs : list response) :
  exists results id_map tr rs',
    create_tickets_batch tickets team_id label_map state_id project_id
      github_base_url dry_run rs = (Ok (results, id_map), tr, rs')
    /\ dom id_map = list_to_set (json_id <$> results)
    /\ sublist (json_id <$> results) (t_id <$> tickets)
    /\ length results <= length tickets
    /\ size id_map <= length tickets.
Proof.
  unfold create_tickets_batch.
  destruct (batch_loop_coherent (length tickets) team_id label_map state_id
              project_id github_base_url tickets dry_run 0 [] ∅ rs)
    as (new & id_map & tr & rs' & Hrun & Hdom & Hsub).
  simpl in Hrun. exists new, id_map, tr, rs'.
  assert (Hlen : length new <= length tickets).
  { apply sublist_length in Hsub. rewrite !length_fmap in Hsub. exact Hsub. }
  split; [exact Hrun|]. split; [rewrite Hdom; set_solver|].
  split; [exact Hsub|]. split; [exact Hlen|].
  rewrite <- size_dom, Hdom, dom_empty_L, (left_id_L ∅ (∪)).
  etransitivity; [apply size_list_to_set_le|].
  rewrite length_fmap. exact Hlen.
Qed.

(** C7. When the creation request of a ticket fails (the request raises,
    reports no success, or comes back without the issue), the batch
    creator prints the error and goes on: the loop over the tickets after
    it starts from the very results list and id map that were reached
    before it, so the failed ticket adds no entry to either, and every
    later ticket still gets its creation request. *)
Theorem failed_creation_is_skipped (pre : list ticket) (t : ticket)
    (post : list ticket) (team_id : string) (label_map : gmap string string)
    (state_id : string) (project_id : option string) (github_base_url : string)
    (rs : list response) (results1 : list TicketResult)
    (id_map1 : gmap string string) (tr1 : list event) (rs1 : list response)
    (e : exn) :
  create_tickets_batch_loop (length (pre ++ t :: post)) 0 pre team_id label_map
    state_id project_id github_base_url false [] ∅ rs
    = (Ok (results1, id_map1), tr1, rs1) ->
  create_issue_outcome (t_title t) (next_outcome rs1) = inr e ->
  exists results id_map tr2 rs2,
    create_tickets_batch_loop (length (pre ++ t :: post)) (S (length pre)) post
      team_id label_map state_id project_id github_base_url false
      results1 id_map1 (tl rs1)
      = (Ok (results, id_map), tr2, rs2)
    /\ create_tickets_batch (pre ++ t :: post) team_id label_map state_id
         project_id github_base_url false rs
       = (Ok (results, id_map),
          tr1
            ++ [EvPrint (progress_line (length (pre ++ t :: post)) (length pre) t);
                EvRequest (issue_request team_id label_map state_id project_id
                             github_base_url t) (next_outcome rs1);
                EvPrint (MsgError e)]
            ++ tr2,
          rs2)
    /\ requests_of tr2
       = issue_request team_id label_map state_id project_id github_base_url
           <$> post.
Proof.
  intros Hpre Hfail.
  destruct (batch_loop_coherent (length (pre ++ t :: post)) team_id label_map
              state_id project_id github_base_url post false (S (length pre))
              results1 id_map1 (tl rs1))
    as (new & id_map & tr2 & rs2 & Hpost & _ & _).
  exists (results1 ++ new), id_map, tr2, rs2.
  split; [exact Hpost|]. split.
  - unfold create_tickets_batch.
    rewrite (batch_loop_app _ _ _ _ _ _ _ _ _ _ _ _ _ _ _ _ _ Hpre).
    rewrite batch_loop_real_cons, Hfail. simpl Nat.add. rewrite Hpost.
    reflexivity.
  - pose proof (batch_loop_real_requests (length (pre ++ t :: post)) team_id
                  label_map state_id project_id github_base_url post
                  (S (length pre)) results1 id_map1 (tl rs1)) as Hreq.
    rewrite Hpost in Hreq. exact Hreq.
Qed.

(** ** The dependency-relation pass *)



Lemma requests_of_app (tr1 tr2 : list event) :
  requests_of (tr1 ++ tr2) = requests_of tr1 ++ requests_of tr2.
Proof. apply omap_app. Qed.

(** What [create_issue_relation] makes of the outcome of its request. *)
Lemma create_issue_relation_run issue_id related_issue_id relation_type rs :
  create_issue_relation issue_id related_issue_id relation_type rs =
  (match next_outcome rs with
   | Raises msg => Raise (RequestError msg)
   | r => Ok (fst (mutation_result r))
   end,
   [EvRequest (CreateRelation issue_id related_issue_id relation_type) (next_outcome rs)],
   tl rs).
Proof.
  unfold create_issue_relation, bind, _graphql_request, next_outcome, ret.
  destruct rs as [|[msg|nodes|success obj] rs]; reflexivity.
Qed.

Section RelationPass.
Variables (id_map : gmap string string) (dry_run : bool).




End RelationPass.







(** ** The label resolver *)

Lemma create_label_run team_id name rs :
  create_label team_id name None rs =
  (match create_label_outcome name (next_outcome rs) with
   | inl label_id => Ok label_id
   | inr e => Raise e
   end,
   [EvRequest (CreateLabel team_id name None) (next_outcome rs)],
   tl rs).
Proof.
  unfold create_label, bind, _graphql_request, next_outcome. cbn [truthy_opt].
  destruct rs as [|[msg|nodes|[|] [label|]] rs]; reflexivity.
Qed.

(** One iteration of the loop of [get_or_create_labels]. *)
Lemma get_or_create_labels_loop_cons team_id name rest existing result rs :
  get_or_create_labels_loop team_id (name :: rest) existing result rs =
  match existing !! lower name with
  | Some label_id =>
      get_or_create_labels_loop team_id rest existing (<[name := label_id]> result) rs
  | None =>
      match create_label_outcome name (next_outcome rs) with
      | inl label_id =>
          match get_or_create_labels_loop team_id rest
                  (<[lower name := label_id]> existing)
                  (<[name := label_id]> result) (tl rs) with
          | (out, tr, rs') =>
              (out,
               EvRequest (CreateLabel team_id name None) (next_outcome rs)
                 :: EvSleep RATE_LIMIT_DELAY :: tr,
               rs')
          end
      | inr e =>
          (Raise e, [EvRequest (CreateLabel team_id name None) (next_outcome rs)], tl rs)
      end
  end.
Proof.
  cbn [get_or_create_labels_loop].
  destruct (existing !! lower name) as [label_id|]; [reflexivity|].
  unfold bind at 1. rewrite create_label_run.
  destruct (create_label_outcome name (next_outcome rs)) as [label_id|e]; [|reflexivity].
  unfold bind, sleep, emit. cbn [app].
  destruct (get_or_create_labels_loop _ _ _ _ _) as [[out tr] rs'].
  reflexivity.
Qed.

Lemma create_label_outcome_inl name r label_id :
  create_label_outcome name r = inl label_id ->
  exists label, r = Created true (Some label) /\ entity_id label = label_id.
Proof.
  destruct r as [msg|nodes|[|] [label|]]; simpl; try discriminate.
  intros [= <-]. exists label. split; reflexivity.
Qed.

Lemma created_label_names_cons (ev : event) (tr : list event) :
  created_label_names (ev :: tr)
  = match created_label_name ev with
    | Some name => name :: created_label_names tr
    | None => created_label_names tr
    end.
Proof. reflexivity. Qed.

Lemma label_created_later team_id ev tr name label_id :
  label_created team_id tr name label_id ->
  label_created team_id (ev :: tr) name label_id.
Proof.
  intros (label & Hin & Hid). exists label. split; [|exact Hid].
  apply elem_of_cons. right. exact Hin.
Qed.

(** The loop of the label resolver.  Whatever the outcome: the creation
    requests go to names of the list whose lower-case form is not in
    [existing], and to no two names of the same lower-case form.  When the
    loop returns: [existing] has grown into a dict that gives every
    requested name, under its lower-case form, the id found in [result]
    under the name itself, and whose new entries come from creation
    requests of the trace. *)
Lemma get_or_create_labels_loop_spec team_id label_names :
  forall existing result rs,
  NoDup (lower <$> created_label_names
                     (trace_of (get_or_create_labels_loop team_id label_names
                                  existing result rs)))
  /\ (forall n,
        n ∈ created_label_names
              (trace_of (get_or_create_labels_loop team_id label_names
                           existing result rs)) ->
        n ∈ label_names /\ existing !! lower n = None)
  /\ (forall result',
        result_of (get_or_create_labels_loop team_id label_names existing result rs)
          = Ok result' ->
        exists existing',
          existing ⊆ existing'
          /\ (forall n, n ∈ label_names ->
                is_Some (existing' !! lower n) /\ result' !! n = existing' !! lower n)
          /\ (forall k, k ∉ label_names -> result' !! k = result !! k)
          /\ (forall k label_id,
                existing' !! k = Some label_id ->
                existing !! k = Some label_id
                \/ exists name,
                     lower name = k /\ name ∈ label_names
                     /\ label_created team_id
                          (trace_of (get_or_create_labels_loop team_id label_names
                                       existing result rs))
                          name label_id)).
Proof.
  induction label_names as [|name rest IH]; intros existing result rs.
  - split; [constructor|]. split.
    + intros n Hn. cbn in Hn. apply elem_of_nil in Hn. destruct Hn.
    + intros result' [= <-]. exists existing. split; [reflexivity|].
      split; [intros n Hn; apply elem_of_nil in Hn; destruct Hn|].
      split; [reflexivity|]. intros k label_id Hk. left. exact Hk.
  - rewrite get_or_create_labels_loop_cons.
    destruct (existing !! lower name) as [label_id|] eqn:Hex.
    + (* the name matches an existing label *)
      destruct (IH existing (<[name := label_id]> result) rs) as (Hnd & Hcr & Hok).
      split; [exact Hnd|]. split.
      * intros n Hn. destruct (Hcr n Hn) as [Hin Hnone].
        split; [apply elem_of_cons; right; exact Hin|exact Hnone].
      * intros result' Hres.
        destruct (Hok result' Hres) as (existing' & Hsub & Hnames & Hother & Hnew).
        exists existing'. split; [exact Hsub|]. split; [|split].
        -- intros n [->|Hn]%elem_of_cons; [|apply Hnames, Hn].
           destruct (decide (name ∈ rest)) as [Hin|Hnotin]; [apply Hnames, Hin|].
           rewrite (Hother name Hnotin), lookup_insert_eq.
           rewrite (lookup_weaken _ _ _ _ Hex Hsub). split; [eexists|]; reflexivity.
        -- intros k [Hne Hk]%not_elem_of_cons.
           rewrite (Hother k Hk). apply lookup_insert_ne. congruence.
        -- intros k id Hk. destruct (Hnew k id Hk) as [Hold|(n & Hl & Hin & Hc)];
             [left; exact Hold|right].
           exists n. split; [exact Hl|]. split; [apply elem_of_cons; right; exact Hin|].
           exact Hc.
    + destruct (create_label_outcome name (next_outcome rs)) as [label_id|e] eqn:Hout.
      * (* the label is created *)
        specialize (IH (<[lower name := label_id]> existing)
                      (<[name := label_id]> result) (tl rs)).
        destruct (get_or_create_labels_loop team_id rest _ _ (tl rs))
          as [[out tr] rs'].
        unfold trace_of, result_of in IH |- *. cbn [fst snd] in IH |- *.
        destruct IH as (Hnd & Hcr & Hok).
        rewrite !created_label_names_cons. cbn [created_label_name].
        split; [|split].
        -- rewrite fmap_cons. apply NoDup_cons. split; [|exact Hnd].
           intros (n & Hl & Hn)%list_elem_of_fmap.
           destruct (Hcr n Hn) as [_ Hnone].
           rewrite <- Hl, lookup_insert_eq in Hnone. discriminate Hnone.
        -- intros n [->|Hn]%elem_of_cons.
           ++ split; [apply elem_of_cons; left; reflexivity|exact Hex].
           ++ destruct (Hcr n Hn) as [Hin Hnone].
              split; [apply elem_of_cons; right; exact Hin|].
              apply lookup_insert_None in Hnone. apply Hnone.
        -- intros result' Hres.
           destruct (Hok result' Hres) as (existing' & Hsub & Hnames & Hother & Hnew).
           assert (Hsub0 : existing ⊆ existing')
             by (etransitivity; [apply insert_subseteq, Hex|exact Hsub]).
           assert (Hmine : existing' !! lower name = Some label_id)
             by (apply (lookup_weaken _ _ _ _ (lookup_insert_eq _ _ _) Hsub)).
           exists existing'. split; [exact Hsub0|]. split; [|split].
           ++ intros n [->|Hn]%elem_of_cons; [|apply Hnames, Hn].
              destruct (decide (name ∈ rest)) as [Hin|Hnotin]; [apply Hnames, Hin|].
              rewrite (Hother name Hnotin), lookup_insert_eq, Hmine.
              split; [eexists|]; reflexivity.
           ++ intros k [Hne Hk]%not_elem_of_cons.
              rewrite (Hother k Hk). apply lookup_insert_ne. congruence.
           ++ intros k id Hk.
              destruct (Hnew k id Hk) as [Hold|(n & Hl & Hin & Hc)].
              ** destruct (decide (lower name = k)) as [<-|Hne].
                 --- rewrite lookup_insert_eq in Hold. injection Hold as <-.
                     right. exists name. split; [reflexivity|].
                     split; [apply elem_of_cons; left; reflexivity|].
                     destruct (create_label_outcome_inl _ _ _ Hout)
                       as (label & Hr & Hid).
                     exists label. split; [|exact Hid].
                     rewrite Hr. apply elem_of_cons. left. reflexivity.
                 --- rewrite lookup_insert_ne in Hold by exact Hne. left. exact Hold.
              ** right. exists n. split; [exact Hl|].
                 split; [apply elem_of_cons; right; exact Hin|].
                 do 2 apply label_created_later. exact Hc.
      * (* the creation fails and the resolver raises *)
        unfold trace_of, result_of. cbn [fst snd].
        rewrite created_label_names_cons. cbn [created_label_name].
        split; [|split].
        -- apply NoDup_cons. split; [apply not_elem_of_nil|constructor].
        -- intros n ->%list_elem_of_singleton.
           split; [apply elem_of_cons; left; reflexivity|exact Hex].
        -- intros result' [=].
Qed.

(** The loop raises only the exception of a creation request that
    failed. *)
Lemma get_or_create_labels_loop_raise team_id label_names :
  forall existing result rs e,
  result_of (get_or_create_labels_loop team_id label_names existing result rs)
    = Raise e ->
  exists name r,
    EvRequest (CreateLabel team_id name None) r
      ∈ trace_of (get_or_create_labels_loop team_id label_names existing result rs)
    /\ create_label_outcome name r = inr e.
Proof.
  induction label_names as [|name rest IH]; intros existing result rs e.
  - intros [=].
  - rewrite get_or_create_labels_loop_cons.
    destruct (existing !! lower name) as [label_id|]; [apply IH|].
    destruct (create_label_outcome name (next_outcome rs)) as [label_id|e'] eqn:Hout.
    + specialize (IH (<[lower name := label_id]> existing)
                    (<[name := label_id]> result) (tl rs) e).
      destruct (get_or_create_labels_loop team_id rest _ _ (tl rs))
        as [[out tr] rs'].
      unfold trace_of, result_of in IH |- *. cbn [fst snd] in IH |- *.
      intros Hres. destruct (IH Hres) as (n & r & Hin & Hfail).
      exists n, r. split; [|exact Hfail].
      apply elem_of_cons; right. apply elem_of_cons; right. exact Hin.
    + unfold trace_of, result_of. cbn [fst snd]. intros [= <-].
      exists name, (next_outcome rs). split; [|exact Hout].
      apply elem_of_cons. left. reflexivity.
Qed.

(** The dict [existing] built from the fetched nodes holds a key exactly
    when a node has that lower-case name, and then the id of such a
    node. *)
Lemma existing_labels_from (nodes : list node) :
  forall (m : gmap string string) k,
  (forall label_id,
     foldl (fun m label => <[lower (node_name label) := node_id label]> m) m nodes !! k
       = Some label_id ->
     m !! k = Some label_id
     \/ exists label, label ∈ nodes /\ lower (node_name label) = k
                      /\ node_id label = label_id)
  /\ (foldl (fun m label => <[lower (node_name label) := node_id label]> m) m nodes !! k
        = None ->
      forall label, label ∈ nodes -> lower (node_name label) <> k).
Proof.
  induction nodes as [|label rest IH]; intros m k; cbn [foldl].
  - split; [intros label_id Hk; left; exact Hk|].
    intros _ label Hin. apply elem_of_nil in Hin. destruct Hin.
  - destruct (IH (<[lower (node_name label) := node_id label]> m) k) as [Hsome Hnone].
    split.
    + intros label_id Hk. destruct (Hsome label_id Hk) as [Hm|(l & Hin & Hl & Hid)].
      * destruct (decide (lower (node_name label) = k)) as [Heq|Hne].
        -- rewrite <- Heq, lookup_insert_eq in Hm. injection Hm as <-.
           right. exists label. split; [apply elem_of_cons; left; reflexivity|].
           split; [exact Heq|reflexivity].
        -- rewrite lookup_insert_ne in Hm by exact Hne. left. exact Hm.
      * right. exists l. split; [apply elem_of_cons; right; exact Hin|].
        split; [exact Hl|exact Hid].
    + intros Hk l [->|Hin]%elem_of_cons; [|apply (Hnone Hk l Hin)].
      intros Heq. clear Hsome Hnone.
      assert (Hfold : forall ns (m' : gmap string string),
                 is_Some (m' !! k) ->
                 is_Some (foldl (fun m label =>
                                   <[lower (node_name label) := node_id label]> m)
                                m' ns !! k)).
      { induction ns as [|n ns IHns]; intros m' Hm'; cbn [foldl]; [exact Hm'|].
        apply IHns. destruct (decide (lower (node_name n) = k)) as [<-|Hne].
        - rewrite lookup_insert_eq. eexists; reflexivity.
        - rewrite lookup_insert_ne by exact Hne. exact Hm'. }
      destruct (Hfold rest (<[lower (node_name label) := node_id label]> m)) as [x Hx].
      { rewrite Heq, lookup_insert_eq. eexists; reflexivity. }
      rewrite Hx in Hk. discriminate Hk.
Qed.

Lemma existing_labels_Some nodes k label_id :
  existing_labels nodes !! k = Some label_id ->
  exists label, label ∈ nodes /\ lower (node_name label) = k /\ node_id label = label_id.
Proof.
  intros Hk. destruct (existing_labels_from nodes ∅ k) as [Hsome _].
  destruct (Hsome label_id Hk) as [Hm|Hl]; [|exact Hl].
  rewrite lookup_empty in Hm. discriminate Hm.
Qed.

Lemma existing_labels_None nodes k :
  existing_labels nodes !! k = None ->
  forall label, label ∈ nodes -> lower (node_name label) <> k.
Proof.
  intros Hk. destruct (existing_labels_from nodes ∅ k) as [_ Hnone].
  apply Hnone, Hk.
Qed.

(** [get_or_create_labels]: the query, then the loop. *)
Lemma get_or_create_labels_run team_id label_names rs :
  get_or_create_labels team_id label_names rs =
  match next_outcome rs with
  | Raises msg =>
      (Raise (RequestError msg), [EvRequest (GetLabels team_id) (Raises msg)], tl rs)
  | r =>
      match get_or_create_labels_loop team_id label_names
              (existing_labels (team_nodes r)) ∅ (tl rs) with
      | (out, tr, rs') => (out, EvRequest (GetLabels team_id) r :: tr, rs')
      end
  end.
Proof.
  unfold get_or_create_labels, bind, _graphql_request, next_outcome.
  destruct rs as [|[msg|nodes|success obj] rs]; try reflexivity;
    cbn [tl app];
    destruct (get_or_create_labels_loop _ _ _ _ _) as [[out tr] rs']; reflexivity.
Qed.

Lemma label_resolver_post_loop team_id label_names nodes rs :
  label_resolver_post team_id label_names nodes
    (result_of (get_or_create_labels_loop team_id label_names
                  (existing_labels nodes) ∅ rs))
    (trace_of (get_or_create_labels_loop team_id label_names
                 (existing_labels nodes) ∅ rs)).
Proof.
  destruct (get_or_create_labels_loop_spec team_id label_names
              (existing_labels nodes) ∅ rs) as (Hnd & Hcr & Hok).
  split; [exact Hnd|]. split.
  - intros n Hn. destruct (Hcr n Hn) as [Hin Hnone].
    split; [exact Hin|]. intros label Hl. apply (existing_labels_None _ _ Hnone label Hl).
  - intros result Hres.
    destruct (Hok result Hres) as (existing' & Hsub & Hnames & Hother & Hnew).
    split.
    + apply set_eq. intros k. rewrite elem_of_dom, elem_of_list_to_set.
      split.
      * intros Hk. destruct (decide (k ∈ label_names)) as [Hin|Hnotin]; [exact Hin|].
        rewrite (Hother k Hnotin), lookup_empty in Hk. destruct Hk as [x [=]].
      * intros Hin. destruct (Hnames k Hin) as [Hsome ->]. exact Hsome.
    + intros name Hin. destruct (Hnames name Hin) as [[label_id Hid] Hres'].
      exists label_id. split; [rewrite Hres'; exact Hid|].
      destruct (Hnew _ _ Hid) as [Hold|(name' & Hl & Hin' & Hc)].
      * left. apply existing_labels_Some, Hold.
      * destruct (existing_labels nodes !! lower name) as [old|] eqn:Hex.
        -- left. pose proof (lookup_weaken _ _ _ _ Hex Hsub) as Hw.
           rewrite Hid in Hw. injection Hw as ->.
           apply existing_labels_Some, Hex.
        -- right. split; [intros label Hl'; apply (existing_labels_None _ _ Hex label Hl')|].
           exists name'. split; [exact Hl|]. split; [exact Hin'|exact Hc].
Qed.

Lemma label_resolver_post_after_query team_id label_names nodes out tr r :
  label_resolver_post team_id label_names nodes out tr ->
  label_resolver_post team_id label_names nodes out (EvRequest (GetLabels team_id) r :: tr).
Proof.
  intros (Hnd & Hcr & Hok). unfold label_resolver_post.
  rewrite created_label_names_cons. cbn [created_label_name].
  split; [exact Hnd|]. split; [exact Hcr|].
  intros result Hres. destruct (Hok result Hres) as [Hdom Hnames].
  split; [exact Hdom|]. intros name Hin.
  destruct (Hnames name Hin) as (label_id & Hid & [Hm|(Hno & name' & Hl & Hin' & Hc)]).
  - exists label_id. split; [exact Hid|]. left. exact Hm.
  - exists label_id. split; [exact Hid|]. right. split; [exact Hno|].
    exists name'. split; [exact Hl|]. split; [exact Hin'|].
    apply label_created_later, Hc.
Qed.

(** C4. For every requested list of names: the resolver asks for the
    creation of a name only when no remote label has that name up to
    case, and never for two names that agree up to case; and the mapping
    it returns has exactly the requested names, in their original case,
    as keys, each with the id of a remote label that matches the name up
    to case or, when there is none, with the id the service returned for
    the creation of that name (up to case).  It returns such a mapping
    unless one of its own requests fails. *)
Theorem label_resolver_spec (team_id : string) (label_names : list string)
    (rs : list response) :
  label_resolver_post team_id label_names (team_nodes (next_outcome rs))
    (result_of (get_or_create_labels team_id label_names rs))
    (trace_of (get_or_create_labels team_id label_names rs))
  /\ (forall e,
        result_of (get_or_create_labels team_id label_names rs) = Raise e ->
        (exists msg, next_outcome rs = Raises msg /\ e = RequestError msg)
        \/ exists name r,
             EvRequest (CreateLabel team_id name None) r
               ∈ trace_of (get_or_create_labels team_id label_names rs)
             /\ create_label_outcome name r = inr e).
Proof.
  rewrite get_or_create_labels_run.
  destruct (next_outcome rs) as [msg|nodes|success obj] eqn:Hout.
  - unfold trace_of, result_of. cbn [fst snd]. split.
    + split; [constructor|]. split.
      * intros n Hn. apply elem_of_nil in Hn. destruct Hn.
      * intros result [=].
    + intros e [= <-]. left. exists msg. split; reflexivity.
  - pose proof (label_resolver_post_loop team_id label_names nodes (tl rs)) as Hpost.
    pose proof (get_or_create_labels_loop_raise team_id label_names
                  (existing_labels nodes) ∅ (tl rs)) as Hraise.
    cbn [team_nodes].
    destruct (get_or_create_labels_loop _ _ _ _ _) as [[out tr] rs'].
    unfold trace_of, result_of in *. cbn [fst snd] in *. split.
    + apply label_resolver_post_after_query, Hpost.
    + intros e He. right. destruct (Hraise e He) as (name & r & Hin & Hfail).
      exists name, r. split; [apply elem_of_cons; right; exact Hin|exact Hfail].
  - pose proof (label_resolver_post_loop team_id label_names [] (tl rs)) as Hpost.
    pose proof (get_or_create_labels_loop_raise team_id label_names
                  (existing_labels []) ∅ (tl rs)) as Hraise.
    cbn [team_nodes].
    destruct (get_or_create_labels_loop _ _ _ _ _) as [[out tr] rs'].
    unfold trace_of, result_of in *. cbn [fst snd] in *. split.
    + apply label_resolver_post_after_query, Hpost.
    + intros e He. right. destruct (Hraise e He) as (name & r & Hin & Hfail).
      exists name, r. split; [apply elem_of_cons; right; exact Hin|exact Hfail].
Qed.

Lemma label_resolver_spec_witness :
  result_of (get_or_create_labels "team" ["core"; "Core"; "rules"]
               [Nodes [Node "label-1" "CORE"];
                Created true (Some (Entity "label-2" "" ""))])
    = Ok (<["rules" := "label-2"]> (<["Core" := "label-1"]> {["core" := "label-1"]}))
  /\ dom (<["rules" := "label-2"]> (<["Core" := "label-1"]> {["core" := "label-1"]})
            : gmap string string)
     = list_to_set ["core"; "Core"; "rules"].
Proof.
  assert (Hrun : result_of (get_or_create_labels "team" ["core"; "Core"; "rules"]
                              [Nodes [Node "label-1" "CORE"];
                               Created true (Some (Entity "label-2" "" ""))])
                 = Ok (<["rules" := "label-2"]>
                         (<["Core" := "label-1"]> {["core" := "label-1"]})))
    by (vm_compute; reflexivity).
  split; [exact Hrun|].
  destruct (label_resolver_spec "team" ["core"; "Core"; "rules"]
              [Nodes [Node "label-1" "CORE"];
               Created true (Some (Entity "label-2" "" ""))])
    as [(_ & _ & Hok) _].
  exact (proj1 (Hok _ Hrun)).
Defined.

Lemma failed_creation_is_skipped_witness :
  exists results id_map tr2 rs2,
    create_tickets_batch_loop 3 2 [ticket_LIC3] "team" ∅ "state" None "https://specs" false
      [mkTicketResult "LIC-1" "issue-1" "CH-1" "https://linear.app/CH-1"]
      {["LIC-1" := "issue-1"]}
      [Created true (Some (Entity "issue-3" "CH-3" "https://linear.app/CH-3"))]
      = (Ok (results, id_map), tr2, rs2)
    /\ create_tickets_batch [ticket_LIC1; ticket_LIC2; ticket_LIC3] "team" ∅ "state"
         None "https://specs" false outcomes_second_fails
       = (Ok (results, id_map),
          [EvPrint (progress_line 3 0 ticket_LIC1);
           EvRequest (issue_request "team" ∅ "state" None "https://specs" ticket_LIC1)
             (Created true (Some (Entity "issue-1" "CH-1" "https://linear.app/CH-1")));
           EvPrint (MsgCreated "CH-1" "https://linear.app/CH-1");
           EvSleep RATE_LIMIT_DELAY]
            ++ [EvPrint (progress_line 3 1 ticket_LIC2);
                EvRequest (issue_request "team" ∅ "state" None "https://specs" ticket_LIC2)
                  (Raises "timeout");
                EvPrint (MsgError (RequestError "timeout"))]
            ++ tr2,
          rs2)
    /\ requests_of tr2
       = issue_request "team" ∅ "state" None "https://specs" <$> [ticket_LIC3].
Proof.
  apply (failed_creation_is_skipped [ticket_LIC1] ticket_LIC2 [ticket_LIC3]
           "team" ∅ "state" None "https://specs" outcomes_second_fails
           [mkTicketResult "LIC-1" "issue-1" "CH-1" "https://linear.app/CH-1"]
           {["LIC-1" := "issue-1"]}
           [EvPrint (progress_line 3 0 ticket_LIC1);
            EvRequest (issue_request "team" ∅ "state" None "https://specs" ticket_LIC1)
              (Created true (Some (Entity "issue-1" "CH-1" "https://linear.app/CH-1")));
            EvPrint (MsgCreated "CH-1" "https://linear.app/CH-1");
            EvSleep RATE_LIMIT_DELAY]
           [Raises "timeout";
            Created true (Some (Entity "issue-3" "CH-3" "https://linear.app/CH-3"))]
           (RequestError "timeout")).
  - vm_compute. reflexivity.
  - reflexivity.
Defined.

(** ** Properties of every event of a run *)

Section Always.
Variable P : list event -> Prop.
Hypothesis P_nil : P [].
Hypothesis P_app : forall tr1 tr2, P tr1 -> P tr2 -> P (tr1 ++ tr2).

#[local] Abbreviation always := (always P).

Lemma always_ret {A} (a : A) : always (ret a).
Proof. intros rs. exact P_nil. Qed.

Lemma always_raise {A} (e : exn) : always (@raise A e).
Proof. intros rs. exact P_nil. Qed.

Lemma always_emit (ev : event) : P [ev] -> always (emit ev).
Proof. intros Hev rs. exact Hev. Qed.

Lemma always_bind {A B} (m : M A) (f : A -> M B) :
  always m -> (forall a, always (f a)) -> always (bind m f).
Proof.
  intros Hm Hf rs. unfold bind. specialize (Hm rs).
  destruct (m rs) as [[[a|e] tr] rs']; [|exact Hm].
  specialize (Hf a rs'). destruct (f a rs') as [[b tr'] rs''].
  unfold trace_of in *. cbn [fst snd] in *. apply P_app; assumption.
Qed.

Lemma always_try_except {A} (body : M A) (handler : exn -> M A) :
  always body -> (forall e, always (handler e)) -> always (try_except body handler).
Proof.
  intros Hm Hf rs. unfold try_except. specialize (Hm rs).
  destruct (body rs) as [[[a|e] tr] rs']; [exact Hm|].
  specialize (Hf e rs'). destruct (handler e rs') as [[b tr'] rs''].
  unfold trace_of in *. cbn [fst snd] in *. apply P_app; assumption.
Qed.

Lemma always_request (q : request) :
  (forall r, P [EvRequest q r]) -> always (_graphql_request q).
Proof.
  intros Hq rs. unfold _graphql_request, trace_of.
  destruct (match rs with r :: _ => r | [] => Raises "connection failed" end);
    cbn [fst snd]; apply Hq.
Qed.
End Always.









(** ** What a run saves *)




















(** ** Rate-limit delays *)

Lemma delay_next_app tr1 tr2 : delay_next tr1 = true -> delay_next (tr1 ++ tr2) = true.
Proof.
  induction tr1 as [|ev tr1 IH]; [discriminate|].
  destruct ev as [q r|ms|m|path records]; cbn [delay_next app];
    try discriminate; [intros H; exact H|exact IH].
Qed.

Lemma delays_follow_app owed tr1 tr2 :
  delays_follow owed tr1 = true -> delays_follow owed tr2 = true ->
  delays_follow owed (tr1 ++ tr2) = true.
Proof.
  intros H1 H2. induction tr1 as [|ev tr1 IH]; [exact H2|].
  destruct ev as [q r|ms|m|path records]; cbn [delays_follow app] in *;
    try (apply IH; exact H1).
  apply andb_prop in H1 as [Hq Htr]. rewrite (IH Htr), andb_true_r.
  destruct (owed q r); [apply delay_next_app, Hq|reflexivity].
Qed.

Lemma delays_kept_app tr1 tr2 :
  delays_kept tr1 -> delays_kept tr2 -> delays_kept (tr1 ++ tr2).
Proof. apply delays_follow_app. Qed.

Ltac delay_step :=
  first
    [ apply always_ret; reflexivity
    | apply always_raise; reflexivity
    | apply always_emit; reflexivity
    | apply always_request; intros; reflexivity
    | apply (always_bind _ delays_kept_app); [|intros]
    | apply (always_try_except _ delays_kept_app); [|intros] ].

Lemma get_or_create_labels_delays team_id label_names :
  always delays_kept (get_or_create_labels team_id label_names).
Proof.
  unfold get_or_create_labels.
  apply (always_bind _ delays_kept_app); [delay_step|intros data].
  generalize (existing_labels (team_nodes data)) (∅ : gmap string string).
  induction label_names as [|name rest IH]; intros existing result rs;
    [reflexivity|].
  rewrite get_or_create_labels_loop_cons.
  destruct (existing !! lower name); [apply IH|].
  destruct (create_label_outcome name (next_outcome rs)) as [label_id|e] eqn:Hout.
  - specialize (IH (<[lower name := label_id]> existing)
                  (<[name := label_id]> result) (tl rs)).
    destruct (get_or_create_labels_loop team_id rest _ _ (tl rs)) as [[out tr] rs'].
    unfold delays_kept, trace_of in *. cbn [fst snd delays_follow creation_returns] in *.
    rewrite Hout. cbn [delay_next]. rewrite IH. reflexivity.
  - unfold delays_kept, trace_of. cbn [fst snd delays_follow creation_returns].
    rewrite Hout. reflexivity.
Qed.

Lemma get_workflow_states_delays team_id :
  always delays_kept (get_workflow_states team_id).
Proof. unfold get_workflow_states. repeat delay_step. Qed.

Lemma get_or_create_project_delays team_id project_name :
  always delays_kept (get_or_create_project team_id project_name).
Proof.
  unfold get_or_create_project. delay_step; [delay_step|].
  destruct (List.find _ _); [delay_step|].
  delay_step; [delay_step|].
  destruct (mutation_result _) as [[|] [project|]]; cbn [negb]; delay_step.
Qed.

Lemma create_tickets_batch_delays tickets team_id label_map state_id project_id
    github_base_url dry_run :
  always delays_kept
    (create_tickets_batch tickets team_id label_map state_id project_id
       github_base_url dry_run).
Proof.
  unfold create_tickets_batch.
  generalize (length tickets) 0 (@nil TicketResult) (∅ : gmap string string).
  induction tickets as [|t rest IH]; intros total i results id_map rs; [reflexivity|].
  destruct dry_run.
  - rewrite batch_loop_dry_cons.
    specialize (IH total (S i) (results ++ [dry_run_result i (t_id t)])
                  (<[t_id t := "dry-run-" +:+ t_id t]> id_map) rs).
    destruct (create_tickets_batch_loop _ _ rest _ _ _ _ _ _ _ _ _) as [[out tr] rs'].
    exact IH.
  - rewrite batch_loop_real_cons.
    destruct (create_issue_outcome (t_title t) (next_outcome rs)) as [issue|e] eqn:Hout.
    + specialize (IH total (S i)
                    (results ++ [{| json_id := t_id t;
                                    linear_id := entity_id issue;
                                    identifier := entity_identifier issue;
                                    url := entity_url issue |}])
                    (<[t_id t := entity_id issue]> id_map) (tl rs)).
      destruct (create_tickets_batch_loop _ _ rest _ _ _ _ _ _ _ _ _) as [[out tr] rs'].
      unfold delays_kept, trace_of in *.
      cbn [fst snd delays_follow creation_returns issue_request in_title] in *.
      rewrite Hout. cbn [delay_next]. rewrite IH. reflexivity.
    + specialize (IH total (S i) results id_map (tl rs)).
      destruct (create_tickets_batch_loop _ _ rest _ _ _ _ _ _ _ _ _) as [[out tr] rs'].
      unfold delays_kept, trace_of in *.
      cbn [fst snd delays_follow creation_returns issue_request in_title] in *.
      rewrite Hout. exact IH.
Qed.

Lemma create_relations_of_delays json_id issue_id deps id_map dry_run :
  forall count,
  always delays_kept (create_relations_of json_id issue_id deps id_map dry_run count).
Proof.
  induction deps as [|dep_id rest IH]; intros count; cbn [create_relations_of];
    [delay_step|].
  destruct (id_map !! dep_id) as [blocking_issue_id|].
  - destruct dry_run.
    + unfold print. repeat delay_step. apply IH.
    + intros rs. unfold bind at 1, try_except, bind at 1.
      rewrite create_issue_relation_run.
      destruct (next_outcome rs) as [msg|nodes|success obj] eqn:Hout;
        unfold bind, print, sleep, emit, ret; cbn [app];
        [specialize (IH count (tl rs))|specialize (IH (count + 1) (tl rs))
        |specialize (IH (count + 1) (tl rs))];
        destruct (create_relations_of json_id issue_id rest id_map false _ (tl rs))
          as [[out tr] rs'];
        unfold delays_kept, trace_of in *;
        cbn [fst snd delays_follow creation_returns delay_next] in *;
        rewrite IH; reflexivity.
  - unfold print. delay_step; [delay_step|apply IH].
Qed.

Lemma create_dependency_relations_delays tickets id_map dry_run :
  always delays_kept (create_dependency_relations tickets id_map dry_run).
Proof.
  unfold create_dependency_relations. generalize 0.
  induction tickets as [|t rest IH]; intros count;
    cbn [create_dependency_relations_loop]; [delay_step|].
  destruct (t_dependencies t) as [|d ds]; [apply IH|].
  destruct (id_map !! t_id t) as [issue_id|]; [|apply IH].
  delay_step; [apply create_relations_of_delays|apply IH].
Qed.

Lemma main_delays a document : always delays_kept (main a document).
Proof.
  unfold main, print.
  do 3 (delay_step; [delay_step|]).
  delay_step; [destruct (arg_dry_run a); delay_step|].
  do 2 (delay_step; [delay_step|]).
  apply (always_bind _ delays_kept_app).
  { destruct (truthy_opt (arg_phase a)); repeat delay_step. }
  intros [|t rest]; [delay_step|].
  delay_step; [delay_step|].
  apply (always_bind _ delays_kept_app).
  { unfold main_setup, print. destruct (arg_dry_run a); cbn [negb]; [delay_step|].
    delay_step; [delay_step|].
    delay_step; [apply get_or_create_labels_delays|].
    delay_step; [delay_step|].
    delay_step; [apply get_workflow_states_delays|].
    destruct (negb _); [repeat delay_step|].
    delay_step; [delay_step|].
    delay_step; [apply get_or_create_project_delays|delay_step]. }
  intros [[[label_map state_id] project_id]|]; [|delay_step].
  unfold main_create, print.
  delay_step; [delay_step|].
  apply (always_bind _ delays_kept_app); [apply create_tickets_batch_delays|].
  intros [results id_map].
  delay_step; [delay_step|].
  delay_step.
  { destruct (arg_skip_relations a); cbn [negb]; [delay_step|].
    delay_step; [delay_step|].
    delay_step; [apply create_dependency_relations_delays|delay_step]. }
  delay_step.
  { destruct (arg_dry_run a); cbn [negb]; [delay_step|].
    unfold save_results, print. repeat delay_step. }
  repeat delay_step.
Qed.

(** C8 fails as stated: the creation request of LIC-1 times out, the
    error is printed, and the creation request of LIC-2 is sent with no
    delay in between. *)
Lemma failed_creation_is_not_followed_by_a_delay :
  ~ delay_after_every_mutation real_args [ticket_LIC1; ticket_LIC2]
      outcomes_first_issue_fails.
Proof.
  intros Hclaim. specialize (Hclaim eq_refl).
  assert (Hrun : delays_follow (fun q _ => mutating q)
                   (trace_of (main real_args [ticket_LIC1; ticket_LIC2]
                                outcomes_first_issue_fails)) = false)
    by (vm_compute; reflexivity).
  rewrite Hrun in Hclaim. discriminate Hclaim.
Qed.

(** C8, amended. In every run, and so in every run outside dry-run mode,
    each call that creates a label, an issue or a relation and returns
    without raising is followed, before anything but printed lines, by a
    sleep of [RATE_LIMIT_DELAY]. *)
Theorem delay_after_returned_creations (a : args) (document : list ticket)
    (rs : list response) :
  delays_follow creation_returns (trace_of (main a document rs)) = true.
Proof. apply main_delays. Qed.

Lemma never_sleeps_app tr1 tr2 :
  never_sleeps tr1 -> never_sleeps tr2 -> never_sleeps (tr1 ++ tr2).
Proof.
  unfold never_sleeps. intros H1 H2. rewrite forallb_app, H1, H2. reflexivity.
Qed.

Lemma get_or_create_project_never_sleeps team_id project_name :
  always never_sleeps (get_or_create_project team_id project_name).
Proof.
  unfold get_or_create_project.
  apply (always_bind _ never_sleeps_app);
    [apply always_request; intros; reflexivity|intros data].
  destruct (List.find _ _); [apply always_ret; reflexivity|].
  apply (always_bind _ never_sleeps_app);
    [apply always_request; intros; reflexivity|intros data'].
  destruct (mutation_result _) as [[|] [project|]]; cbn [negb];
    first [apply always_ret; reflexivity | apply always_raise; reflexivity].
Qed.

(** ** Whole dry runs *)

Lemma no_requests_app tr1 tr2 :
  no_requests tr1 -> no_requests tr2 -> no_requests (tr1 ++ tr2).
Proof.
  unfold no_requests. intros H1 H2. rewrite forallb_app, H1, H2. reflexivity.
Qed.

Lemma prints_no_requests tr : forallb is_print tr = true -> no_requests tr.
Proof.
  unfold no_requests. induction tr as [|ev tr IH]; [reflexivity|].
  cbn [forallb]. intros [Hev Htr]%andb_prop. rewrite (IH Htr), andb_true_r.
  destruct ev; try discriminate Hev. reflexivity.
Qed.

Ltac quiet_step :=
  first
    [ apply always_ret; reflexivity
    | apply always_emit; reflexivity
    | apply (always_bind _ no_requests_app); [|intros] ].

Lemma dry_relations_send_no_request tickets id_map :
  always no_requests (create_dependency_relations tickets id_map true).
Proof.
  unfold create_dependency_relations. generalize 0.
  induction tickets as [|t rest IH]; intros count;
    cbn [create_dependency_relations_loop]; [quiet_step|].
  destruct (t_dependencies t) as [|d ds]; [apply IH|].
  destruct (id_map !! t_id t) as [issue_id|]; [|apply IH].
  quiet_step; [|apply IH].
  generalize (d :: ds) count. clear. intros deps.
  induction deps as [|dep_id deps IH]; intros count;
    cbn [create_relations_of]; [quiet_step|].
  unfold print.
  destruct (id_map !! dep_id) as [blocking_issue_id|].
  - quiet_step; [repeat quiet_step|apply IH].
  - quiet_step; [quiet_step|apply IH].
Qed.

(** A whole dry run sends no request: the setup fabricates the label map,
    the state and the project, and the batch creator and the relation
    pass only print. *)
Lemma dry_run_main_sends_no_request a document :
  arg_dry_run a = true -> always no_requests (main a document).
Proof.
  intros Hdry. unfold main, main_setup, main_create, print. rewrite Hdry.
  cbn [negb].
  do 6 (quiet_step; [quiet_step|]).
  apply (always_bind _ no_requests_app).
  { destruct (truthy_opt (arg_phase a)); repeat quiet_step. }
  intros [|t rest]; [quiet_step|].
  quiet_step; [quiet_step|].
  apply (always_bind _ no_requests_app); [quiet_step|].
  intros [[[label_map state_id] project_id]|]; [|quiet_step].
  quiet_step; [quiet_step|].
  apply (always_bind _ no_requests_app).
  { intros rs. unfold create_tickets_batch.
    destruct (batch_loop_dry (length (t :: rest)) (arg_team_id a) label_map state_id
                (Some project_id) (arg_github_url a) (t :: rest) 0 [] ∅ rs)
      as (tr & Hrun & Hpr).
    rewrite Hrun. apply prints_no_requests, Hpr. }
  intros [results id_map].
  quiet_step; [quiet_step|].
  quiet_step.
  { destruct (arg_skip_relations a); cbn [negb]; [quiet_step|].
    quiet_step; [quiet_step|].
    quiet_step; [apply dry_relations_send_no_request|quiet_step]. }
  repeat quiet_step.
Qed.

